(** * nuxi: the programmatic command runner ([packages/nuxi/src/run.ts])

    A shallow embedding of [runCommand] and of the JavaScript it relies on:
    plain data values, objects as finite maps from property names to
    values, abrupt completions (a [throw], a rejected promise) as an
    explicit result, and the effects of the code that [runCommand] calls
    (a command loader, a command's [invoke]) as state passing over an
    abstract world. *)

From Stdlib Require Import Floats.PrimFloat.
From stdpp Require Import gmap strings list fin_maps option.

#[local] Set Warnings "-register-all".

(** ** JavaScript values *)

Module Js.

(** Data values: what [mri] stores in the object it returns and what a
    caller may pass as [options] or as [options.config]. *)
Inductive JsVal : Type :=
| VUndefined
| VNull
| VBool (b : bool)
| VNum (x : float)
| VStr (s : string)
| VArr (xs : list JsVal)
| VObj (props : gmap string JsVal).

(** ToBoolean: [undefined], [null], [false], [0], [NaN] and the empty
    string are falsy, everything else (every array, every object) is
    truthy. *)
Definition truthy (v : JsVal) : bool :=
  match v with
  | VUndefined | VNull => false
  | VBool b => b
  | VNum x => negb (PrimFloat.eqb x 0%float || PrimFloat.is_nan x)
  | VStr s => negb (String.eqb s "")
  | VArr _ | VObj _ => true
  end.

(** The two ways an evaluation ends: with a value, or abruptly with
    the thrown value (for a promise: fulfilled, or rejected with a
    reason). *)
Inductive Completion (X A : Type) : Type :=
| Normal (a : A)
| Throw (x : X).
#[global] Arguments Normal {X A} a.
#[global] Arguments Throw {X A} x.

(** An exception seen by the caller of [runCommand], told apart by the
    place that created it. JavaScript errors are objects with an
    identity: the object allocated by [new Error(...)] inside
    [runCommand] is never the object some other code threw, whatever
    its message. *)
Inductive Exn : Type :=
| TypeError (msg : string)   (* raised by the engine on an expression of runCommand *)
| NewError (msg : string)    (* [new Error(msg)] evaluated by runCommand itself *)
| Foreign (reason : JsVal).  (* thrown, or rejected with, by code that runCommand calls *)

(** [v.config] for a data value [v]: reading a property of [undefined]
    or [null] is a TypeError, an object yields the property or
    [undefined], and no primitive or array has a [config] property. *)
Definition get_config (v : JsVal) : Completion Exn JsVal :=
  match v with
  | VUndefined =>
      Throw (TypeError "Cannot read properties of undefined (reading 'config')")
  | VNull =>
      Throw (TypeError "Cannot read properties of null (reading 'config')")
  | VObj props => Normal (default VUndefined (props !! "config"))
  | VBool _ | VNum _ | VStr _ | VArr _ => Normal VUndefined
  end.

End Js.
Export Js.

(** ** Commands, the registry, and the runner *)

Section Nuxi.

(** Everything a loader or a command can act on (the file system, the
    dev server, the console, ...). *)
Context {World : Type}.

(** [NuxtCommand] of [./commands]: the runner only uses [invoke]. The
    call either returns a result ([void | 'error' | 'wait'], possibly
    through a promise) or fails with some reason, and leaves the world
    changed. *)
Record NuxtCommand : Type := {
  invoke : gmap string JsVal → World → World * Completion JsVal JsVal
}.

(** What [await commands[command]()] may evaluate to: a plain value, or
    an object with an [invoke] method. *)
Inductive Loaded : Type :=
| LValue (v : JsVal)
| LCommand (c : NuxtCommand).

Definition loaded_truthy (l : Loaded) : bool :=
  match l with
  | LValue v => truthy v
  | LCommand _ => true
  end.

(** A callable entry of the registry: calling and awaiting it yields a
    loaded value or fails (the import is rejected). *)
Definition Loader : Type := World → World * Completion JsVal Loaded.

(** The calls [runCommand] makes into other code, in order. *)
Inductive Event : Type :=
| EvLoad (command : string)
| EvInvoke (c : NuxtCommand) (args : gmap string JsVal).

(** Computations of the runner: they transform the world, log the
    calls they make, and complete normally or abruptly. A run is taken
    on its own (nothing else touches the world while the runner awaits)
    and the promises it awaits are taken to settle. *)
Definition Run (A : Type) : Type := World → World * list Event * Completion Exn A.

#[local] Instance run_ret : MRet Run := λ A a w, (w, [], Normal a).
#[local] Instance run_bind : MBind Run := λ A B k m w,
  match m w with
  | (w1, evs1, Normal a) =>
      match k a w1 with
      | (w2, evs2, r) => (w2, evs1 ++ evs2, r)
      end
  | (w1, evs1, Throw e) => (w1, evs1, Throw e)
  end.

Definition throw {A} (e : Exn) : Run A := λ w, (w, [], Throw e).

(** An expression of the runner itself: no call, no effect. *)
Definition engine {A} (r : Completion Exn A) : Run A := λ w, (w, [], r).

(** How an outcome of foreign code appears to the caller of the runner. *)
Definition forwarded {A} (r : Completion JsVal A) : Completion Exn A :=
  match r with
  | Normal a => Normal a
  | Throw reason => Throw (Foreign reason)
  end.

(** A call into foreign code: logged, run on the world, and an abrupt
    completion re-thrown as it is. *)
Definition call {A} (ev : Event) (f : World → World * Completion JsVal A) : Run A := λ w,
  match f w with
  | (w1, r) => (w1, [ev], forwarded r)
  end.

(** The parser [mri] (an external package), the arguments of the
    process, and the registry [commands] of [./commands]: the property
    names under which the registry object holds something callable. *)
Context (mri : list string → gmap string JsVal).
Context (process_argv : list string).
Context (commands : gmap string Loader).

(** Line 9: [await commands[command]()]. A name under which the
    registry holds nothing callable makes the call itself fail. *)
Definition load (command : string) : Run Loaded :=
  match (commands !! command : option Loader) with
  | None => throw (TypeError "commands[command] is not a function")
  | Some loader => call (EvLoad command) loader
  end.

(** Line 13: [cmd.invoke(args)] for a truthy [cmd]. *)
Definition call_invoke (cmd : Loaded) (args : gmap string JsVal) : Run JsVal :=
  match cmd with
  | LCommand c => call (EvInvoke c args) (invoke c args)
  | LValue _ => throw (TypeError "cmd.invoke is not a function")
  end.

(** Lines 6 to 8: the argument object. *)
Definition parse_args (argv : option (list string)) : gmap string JsVal :=
  mri (default (drop 2 process_argv) argv).

Definition build_args (argv : option (list string)) (config : JsVal) : gmap string JsVal :=
  <["config" := config]> (<["clear" := VBool false]> (parse_args argv)).

(** [runCommand (command, argv = process.argv.slice(2), options)];
    an omitted [argv] is [None]. *)
Definition runCommand (command : string) (argv : option (list string)) (options : JsVal)
  : Run JsVal :=
  let args := parse_args argv in
  let args := <["clear" := VBool false]> args in
  config ← engine (get_config options);
  let args := <["config" := config]> args in
  cmd ← load command;
  if negb (loaded_truthy cmd)
  then throw (NewError ("Invalid command " +:+ command))
  else call_invoke cmd args.

(** Every run takes one of the six paths. *)
Inductive Path (command : string) (argv : option (list string)) (options : JsVal)
  (w : World) : World * list Event * Completion Exn JsVal → Prop :=
| PathOptions e :
    get_config options = Throw e →
    Path command argv options w (w, [], Throw e)
| PathNotCallable config :
    get_config options = Normal config →
    commands !! command = None →
    Path command argv options w
      (w, [], Throw (TypeError "commands[command] is not a function"))
| PathRejected config (loader : Loader) w1 reason :
    get_config options = Normal config →
    commands !! command = Some loader →
    loader w = (w1, Throw reason) →
    Path command argv options w (w1, [EvLoad command], Throw (Foreign reason))
| PathInvalid config (loader : Loader) w1 cmd :
    get_config options = Normal config →
    commands !! command = Some loader →
    loader w = (w1, Normal cmd) →
    loaded_truthy cmd = false →
    Path command argv options w
      (w1, [EvLoad command], Throw (NewError ("Invalid command " +:+ command)))
| PathNoInvoke config (loader : Loader) w1 v :
    get_config options = Normal config →
    commands !! command = Some loader →
    loader w = (w1, Normal (LValue v)) →
    truthy v = true →
    Path command argv options w
      (w1, [EvLoad command], Throw (TypeError "cmd.invoke is not a function"))
| PathInvoke config (loader : Loader) w1 c w2 r :
    get_config options = Normal config →
    commands !! command = Some loader →
    loader w = (w1, Normal (LCommand c)) →
    invoke c (build_args argv config) w1 = (w2, r) →
    Path command argv options w
      (w2, [EvLoad command; EvInvoke c (build_args argv config)], forwarded r).

End Nuxi.

(** ** A small installation, for running the definitions

    A world that journals what was executed, a registry of journalling
    commands, a command that fails, and an entry that loads nothing. *)

Module Fixture.

(** The journal of executed commands, each with the arguments it got. *)
Definition Journal : Type := list (string * gmap string JsVal).

Definition journalling (name : string) : NuxtCommand (World := Journal) :=
  {| invoke := λ args w, (w ++ [(name, args)], Normal VUndefined) |}.

Definition failing (reason : JsVal) : NuxtCommand (World := Journal) :=
  {| invoke := λ _ w, (w, Throw reason) |}.

Definition resolves (l : Loaded (World := Journal)) : Loader (World := Journal) :=
  λ w, (w, Normal l).

(** Modelled from the spec: the table of [./commands] is missing; the
    spec names the subcommands [dev], [build] and [generate], each
    behind a loader that resolves to its command. *)
Definition registry : gmap string (Loader (World := Journal)) :=
  {[ "dev" := resolves (LCommand (journalling "dev"));
     "build" := resolves (LCommand (journalling "build"));
     "generate" := resolves (LCommand (journalling "generate")) ]}.

(** The reason a failing build rejects with. *)
Definition build_failure : JsVal := VObj {[ "message" := VStr "Build failed" ]}.

(** The same table with two more entries: a command whose [invoke]
    rejects, and a loader that resolves to [undefined]. *)
Definition registry' : gmap string (Loader (World := Journal)) :=
  <["broken" := resolves (LCommand (failing build_failure))]>
    (<["empty" := resolves (LValue VUndefined)]> registry).

(** A stand-in for [mri], right on the argument lists used below:
    [mri(['--clear', '--config', 'other.config.ts', '--port', '4000'])]
    has the three flags and no positional argument, and a list in which
    no argument starts with a dash is all positional. *)
Definition flags : list string :=
  ["--clear"; "--config"; "other.config.ts"; "--port"; "4000"].

Definition parsed_flags : gmap string JsVal :=
  {[ "_" := VArr [];
     "clear" := VBool true;
     "config" := VStr "other.config.ts";
     "port" := VNum 4000%float ]}.

Definition parse (argv : list string) : gmap string JsVal :=
  if decide (argv = flags) then parsed_flags
  else {[ "_" := VArr (VStr <$> argv) ]}.

Definition options : JsVal :=
  VObj {[ "config" := VObj {[ "ssr" := VBool false ]} ]}.

End Fixture.

(** More entries for the same installation: a loader whose import is
    rejected, and a loader that resolves to a module exporting a string
    instead of a command. *)
Module Broken.

Definition import_failure : JsVal :=
  VObj {[ "message" := VStr "Cannot find module" ]}.

Definition rejects (reason : JsVal) : Loader (World := Fixture.Journal) :=
  λ w, (w, Throw reason).

Definition registry : gmap string (Loader (World := Fixture.Journal)) :=
  <["offline" := rejects import_failure]>
    (<["text" := Fixture.resolves (LValue (VStr "not a command"))]> Fixture.registry).

(** The journal only ever mentions [dev]. *)
Definition only_dev (w : Fixture.Journal) : Prop :=
  Forall (λ entry, entry.1 = "dev") w.

(** A parser that reads [--clear] and [--config] differently from
    [Fixture.parse] and agrees with it everywhere else. *)
Definition parse' (argv : list string) : gmap string JsVal :=
  <["clear" := VStr "yes"]> (delete "config" (Fixture.parse argv)).

End Broken.

(** * Properties of the runner *)

Section NuxiFacts.

Context {World : Type}.
Context (mri : list string → gmap string JsVal).
Context (process_argv : list string).
Context (commands : gmap string (Loader (World := World))).

#[local] Abbreviation run := (runCommand mri process_argv commands).
#[local] Abbreviation args_of := (build_args mri process_argv).

(** The runner, path by path. *)

Lemma run_options_unreadable command argv options e w :
  get_config options = Throw e →
  run command argv options w = (w, [], Throw e).
Proof.
  intros Hcfg. unfold runCommand, mbind, run_bind, engine. by rewrite Hcfg.
Qed.

Lemma run_not_callable command argv options config w :
  get_config options = Normal config →
  commands !! command = None →
  run command argv options w
  = (w, [], Throw (TypeError "commands[command] is not a function")).
Proof.
  intros Hcfg Hreg. unfold runCommand, mbind, run_bind, engine, load.
  by rewrite Hcfg, Hreg.
Qed.

Lemma run_load_rejected command argv options config (loader : Loader) w w1 reason :
  get_config options = Normal config →
  commands !! command = Some loader →
  loader w = (w1, Throw reason) →
  run command argv options w = (w1, [EvLoad command], Throw (Foreign reason)).
Proof.
  intros Hcfg Hreg Hload. unfold runCommand, mbind, run_bind, engine, load.
  rewrite Hcfg, Hreg. unfold call. by rewrite Hload.
Qed.

Lemma run_loaded_falsy command argv options config (loader : Loader) w w1 cmd :
  get_config options = Normal config →
  commands !! command = Some loader →
  loader w = (w1, Normal cmd) →
  loaded_truthy cmd = false →
  run command argv options w
  = (w1, [EvLoad command], Throw (NewError ("Invalid command " +:+ command))).
Proof.
  intros Hcfg Hreg Hload Hfalsy.
  unfold runCommand, mbind, run_bind, engine, load.
  rewrite Hcfg, Hreg. unfold call. rewrite Hload. simpl. by rewrite Hfalsy.
Qed.

Lemma run_loaded_value command argv options config (loader : Loader) w w1 v :
  get_config options = Normal config →
  commands !! command = Some loader →
  loader w = (w1, Normal (LValue v)) →
  truthy v = true →
  run command argv options w
  = (w1, [EvLoad command], Throw (TypeError "cmd.invoke is not a function")).
Proof.
  intros Hcfg Hreg Hload Htruthy.
  unfold runCommand, mbind, run_bind, engine, load.
  rewrite Hcfg, Hreg. unfold call. rewrite Hload. simpl. by rewrite Htruthy.
Qed.

Lemma run_loaded_command command argv options config (loader : Loader) w w1 c :
  get_config options = Normal config →
  commands !! command = Some loader →
  loader w = (w1, Normal (LCommand c)) →
  run command argv options w
  = (let '(w2, r) := invoke c (args_of argv config) w1 in
     (w2, [EvLoad command; EvInvoke c (args_of argv config)], forwarded r)).
Proof.
  intros Hcfg Hreg Hload.
  unfold runCommand, mbind, run_bind, engine, load, build_args.
  rewrite Hcfg, Hreg. unfold call at 1. rewrite Hload. simpl. unfold call.
  by destruct (invoke c _ w1) as [w2 r].
Qed.

Lemma run_path command argv options w :
  Path mri process_argv commands command argv options w (run command argv options w).
Proof.
  destruct (get_config options) as [config|e] eqn:Hcfg.
  2: { rewrite (run_options_unreadable _ _ _ e) by done. by constructor. }
  destruct (commands !! command) as [loader|] eqn:Hreg.
  2: { rewrite (run_not_callable _ _ _ config) by done. by econstructor. }
  destruct (loader w) as [w1 [cmd|reason]] eqn:Hload.
  2: { erewrite run_load_rejected by done. by econstructor. }
  destruct cmd as [v|c].
  - destruct (truthy v) eqn:Hv.
    + erewrite run_loaded_value by done. by econstructor.
    + erewrite run_loaded_falsy by done. by econstructor.
  - erewrite run_loaded_command by done.
    destruct (invoke c _ w1) as [w2 r] eqn:Hinv. by econstructor.
Qed.

(** Case analysis on the path that a given run took. *)
Ltac run_inversion Hrun :=
  let Hpath := fresh "Hpath" in
  lazymatch type of Hrun with
  | runCommand _ _ _ ?command ?argv ?options ?w = _ =>
      pose proof (run_path command argv options w) as Hpath;
      rewrite Hrun in Hpath; inversion Hpath; subst; clear Hpath
  end.

(** An outcome of foreign code is never an exception of the runner's own. *)
Ltac destruct_forwarded :=
  match goal with
  | H : forwarded ?r = _ |- _ => destruct r; simpl in H
  | H : _ = forwarded ?r |- _ => destruct r; simpl in H
  end.

(** Membership in the short logs that runs produce. *)
Ltac log_membership :=
  repeat match goal with
    | H : _ ∈ [] |- _ => by apply not_elem_of_nil in H
    | H : _ ∈ _ :: _ |- _ => apply elem_of_cons in H as [H|H]; try discriminate H
    end.

(** An [invoke] in the log was given the arguments built on lines 6 to 8. *)
Lemma run_invoke_logged command argv options w w' evs r c args :
  run command argv options w = (w', evs, r) →
  EvInvoke c args ∈ evs →
  ∃ config, get_config options = Normal config ∧ args = args_of argv config.
Proof.
  intros Hrun Hin. run_inversion Hrun; log_membership.
  eexists. split; [done|]. by injection Hin as _ ->.
Qed.

(** X1. A run returns only by dispatching: a normal result is the result
    of the [invoke] of the command that the registered loader resolved
    to, on the built arguments, and the run made those two calls only. *)
Lemma run_returns_by_dispatch command argv options w w' evs v :
  run command argv options w = (w', evs, Normal v) →
  ∃ config (loader : Loader) w1 c,
    get_config options = Normal config ∧
    commands !! command = Some loader ∧
    loader w = (w1, Normal (LCommand c)) ∧
    invoke c (args_of argv config) w1 = (w', Normal v) ∧
    evs = [EvLoad command; EvInvoke c (args_of argv config)].
Proof.
  intros Hrun. run_inversion Hrun.
  match goal with
  | Hfw : forwarded ?r = Normal v |- _ => destruct r; [injection Hfw as ->|discriminate Hfw]
  end.
  by eexists _, _, _, _.
Qed.

(** ** What a run never does *)

Lemma get_config_throws options e :
  get_config options = Throw e →
  (options = VUndefined ∨ options = VNull) ∧ ∃ msg, e = TypeError msg.
Proof. destruct options; intros [= <-]; eauto. Qed.

Lemma get_config_readable options :
  options ≠ VUndefined → options ≠ VNull →
  ∃ config, get_config options = Normal config.
Proof. destruct options; simpl; intros; eauto; done. Qed.

Lemma get_config_nullish options :
  options = VUndefined ∨ options = VNull →
  ∃ msg, get_config options = Throw (TypeError msg).
Proof. intros [-> | ->]; simpl; eauto. Qed.

(** X2. The log of a run is empty, or the load of the requested name, or
    that load followed by one [invoke]: a run never loads another
    name, never loads or invokes twice, and never invokes without
    having loaded. *)
Theorem run_log_shape command argv options w w' evs r :
  run command argv options w = (w', evs, r) →
  evs = [] ∨ evs = [EvLoad command] ∨
  ∃ c args, evs = [EvLoad command; EvInvoke c args].
Proof. intros Hrun. run_inversion Hrun; eauto. Qed.

(** X3. A run makes no call at all exactly when [options] is [undefined] or
    [null], or the registry holds nothing callable under the name; such
    a run leaves the world untouched and fails with a TypeError. *)
Theorem run_without_call command argv options w w' evs r :
  run command argv options w = (w', evs, r) →
  (evs = [] ↔ (options = VUndefined ∨ options = VNull) ∨ commands !! command = None)
  ∧ (evs = [] → w' = w ∧ ∃ msg, r = Throw (TypeError msg)).
Proof.
  intros Hrun. split; [split|].
  - intros ->. run_inversion Hrun.
    + left. by eapply get_config_throws.
    + by right.
  - intros Hwhy. run_inversion Hrun; try done;
      destruct Hwhy as [Hnull|Hreg]; try congruence;
      destruct (get_config_nullish _ Hnull); congruence.
  - intros ->. run_inversion Hrun.
    + split; [done|].
      match goal with H : get_config _ = Throw _ |- _ =>
        destruct (get_config_throws _ _ H) as [_ [msg ->]] end.
      by exists msg.
    + split; [done|]. by eexists.
Qed.

(** X4. The runner reads one entry of the registry: two registries that
    agree under the requested name give the same run. *)
Theorem run_registry_frame (commands' : gmap string Loader) command argv options w :
  commands !! command = commands' !! command →
  run command argv options w = runCommand mri process_argv commands' command argv options w.
Proof.
  intros Hsame. unfold runCommand, mbind, run_bind, engine, load.
  destruct (get_config options) as [config|e]; [|done].
  by rewrite Hsame.
Qed.

(** X5. When the registered loader rejects, the run rejects with the
    loader's reason, in the world the loader left, without any
    [invoke]. *)
Theorem runCommand_forwards_load_failure
    command argv options config (loader : Loader) w w1 reason :
  get_config options = Normal config →
  commands !! command = Some loader →
  loader w = (w1, Throw reason) →
  run command argv options w = (w1, [EvLoad command], Throw (Foreign reason)).
Proof. apply run_load_rejected. Qed.

(** X6. A reason the run fails with was produced by the loader or by the
    [invoke]: the runner neither makes one up nor alters one. *)
Theorem run_foreign_provenance command argv options w w' evs reason :
  run command argv options w = (w', evs, Throw (Foreign reason)) →
  ∃ config (loader : Loader),
    get_config options = Normal config ∧
    commands !! command = Some loader ∧
    ((loader w = (w', Throw reason) ∧ evs = [EvLoad command])
     ∨ ∃ w1 c,
         loader w = (w1, Normal (LCommand c)) ∧
         invoke c (args_of argv config) w1 = (w', Throw reason) ∧
         evs = [EvLoad command; EvInvoke c (args_of argv config)]).
Proof.
  intros Hrun. run_inversion Hrun.
  - match goal with H : get_config _ = Throw _ |- _ =>
      by destruct (get_config_throws _ _ H) as [_ [msg ?]] end.
  - eexists _, _. split; [done|]. split; [done|]. by left.
  - match goal with
    | Hfw : forwarded ?r = Throw _ |- _ => destruct r; [discriminate Hfw|injection Hfw as ->]
    end.
    eexists _, _. split; [done|]. split; [done|]. right. by eexists _, _.
Qed.

(** X7. The guard of line 10 tests truthiness only: when the loader
    resolves to a truthy value that is no command, the run fails on
    line 13 with a TypeError after that one load, and exactly then. *)
Theorem runCommand_not_a_command_iff command argv options config w :
  get_config options = Normal config →
  (∃ (loader : Loader) w1 v,
     commands !! command = Some loader ∧
     loader w = (w1, Normal (LValue v)) ∧ truthy v = true)
  ↔ ∃ w' msg, run command argv options w = (w', [EvLoad command], Throw (TypeError msg)).
Proof.
  intros Hcfg. split.
  - intros (loader & w1 & v & Hreg & Hload & Hv).
    eexists _, _. by eapply run_loaded_value.
  - intros (w' & msg & Hrun).
    run_inversion Hrun; try congruence. by eexists _, _, _.
Qed.

(** X8. An [options] object without a [config] property still overrides:
    the [invoke] receives [config] as a key holding [undefined],
    whatever the parser found for [--config]. *)
Theorem invoke_args_config_missing command argv props w w' evs r c args :
  props !! "config" = None →
  runCommand mri process_argv commands command argv (VObj props) w = (w', evs, r) →
  EvInvoke c args ∈ evs →
  args !! "config" = Some VUndefined.
Proof.
  intros Hmissing Hrun Hin.
  destruct (run_invoke_logged _ _ _ _ _ _ _ _ _ Hrun Hin) as (config & Hcfg & ->).
  simpl in Hcfg. rewrite Hmissing in Hcfg. injection Hcfg as <-.
  unfold build_args. apply lookup_insert_eq.
Qed.

(** X9. What the parser finds under [clear] and [config] has no influence
    on the run: two parsers that agree under every other key give the
    same run, log and outcome included. *)
Theorem run_parser_frame (mri' : list string → gmap string JsVal) command argv options w :
  (∀ argv' key, key ≠ "clear" → key ≠ "config" → mri argv' !! key = mri' argv' !! key) →
  run command argv options w = runCommand mri' process_argv commands command argv options w.
Proof.
  intros Hagree.
  assert (Hargs : ∀ config,
    <["config" := config]> (<["clear" := VBool false]> (parse_args mri process_argv argv))
    = <["config" := config]> (<["clear" := VBool false]> (parse_args mri' process_argv argv))).
  { intros config. apply map_eq. intros key. unfold parse_args.
    destruct (decide (key = "config")) as [->|Hconfig].
    { by rewrite !lookup_insert_eq. }
    rewrite !(lookup_insert_ne _ "config") by done.
    destruct (decide (key = "clear")) as [->|Hclear].
    { by rewrite !lookup_insert_eq. }
    rewrite !(lookup_insert_ne _ "clear") by done. by apply Hagree. }
  unfold runCommand, mbind, run_bind, engine.
  destruct (get_config options) as [config|e]; [|done].
  by rewrite Hargs.
Qed.

(** X10. The runner has no effect of its own: a property of the world that
    the registered loader and the command it loads preserve is
    preserved by the run. *)
Theorem run_preserves (I : World → Prop) command argv options w :
  (∀ (loader : Loader) w0,
     commands !! command = Some loader → I w0 → I (loader w0).1) →
  (∀ (loader : Loader) w0 w1 c args,
     commands !! command = Some loader → loader w0 = (w1, Normal (LCommand c)) →
     I w1 → I (invoke c args w1).1) →
  I w → I (run command argv options w).1.1.
Proof.
  intros Hloader Hinvoke Hw.
  pose proof (run_path command argv options w) as Hpath.
  inversion Hpath as
    [ e Hcfg Heq
    | config Hcfg Hreg Heq
    | config loader w1 reason Hcfg Hreg Hload Heq
    | config loader w1 cmd Hcfg Hreg Hload Hfalsy Heq
    | config loader w1 v Hcfg Hreg Hload Hv Heq
    | config loader w1 c w2 r Hcfg Hreg Hload Hinv Heq ]; simpl; try done.
  - specialize (Hloader loader w Hreg Hw). by rewrite Hload in Hloader.
  - specialize (Hloader loader w Hreg Hw). by rewrite Hload in Hloader.
  - specialize (Hloader loader w Hreg Hw). by rewrite Hload in Hloader.
  - specialize (Hloader loader w Hreg Hw). rewrite Hload in Hloader.
    specialize (Hinvoke loader w w1 c (args_of argv config) Hreg Hload Hloader).
    by rewrite Hinv in Hinvoke.
Qed.

(** ** The claims *)

(** C1 (amended). A command name that the registry maps to a command is
    dispatched through the registry whenever [options] is neither
    [undefined] nor [null]: [options.config] is read, the loader
    registered under the name is called, then the [invoke] of the
    command it loaded, on the object that [mri] parsed from [argv] with
    [clear] and [config] overridden, and the run completes exactly as
    that call does; these are the only two calls, whatever the name. *)
Theorem runCommand_dispatches command argv options (loader : Loader) c w w1 :
  options ≠ VUndefined →
  options ≠ VNull →
  commands !! command = Some loader →
  loader w = (w1, Normal (LCommand c)) →
  ∃ config args,
    get_config options = Normal config ∧
    args = <["config" := config]>
             (<["clear" := VBool false]> (mri (default (drop 2 process_argv) argv))) ∧
    runCommand mri process_argv commands command argv options w
    = (let '(w2, r) := invoke c args w1 in
       (w2, [EvLoad command; EvInvoke c args], forwarded r)).
Proof.
  intros Hundefined Hnull Hreg Hload.
  destruct (get_config_readable options Hundefined Hnull) as [config Hcfg].
  exists config. eexists. split; [done|]. split; [done|].
  by rewrite (run_loaded_command _ _ _ _ _ _ _ _ Hcfg Hreg Hload).
Qed.

(** C3. When the [invoke] of the looked-up command fails, [runCommand]
    fails with the very reason [invoke] failed with: the world is left
    as [invoke] left it and the run made no call after (or besides) that
    one [invoke], so nothing is caught, retried or recovered. *)
Theorem runCommand_forwards_failure
    command argv options config (loader : Loader) c w w1 w2 reason :
  get_config options = Normal config →
  commands !! command = Some loader →
  loader w = (w1, Normal (LCommand c)) →
  invoke c (args_of argv config) w1 = (w2, Throw reason) →
  run command argv options w
  = (w2, [EvLoad command; EvInvoke c (args_of argv config)], Throw (Foreign reason)).
Proof.
  intros Hcfg Hreg Hload Hinv.
  rewrite (run_loaded_command _ _ _ _ _ _ _ _ Hcfg Hreg Hload).
  by rewrite Hinv.
Qed.

(** C4. Whatever [argv] and [options] are, an argument object that
    [runCommand] passes to an [invoke] has [clear] equal to [false] and
    [config] equal to [options.config], whatever the parser found for
    these two keys in [argv]. *)
Theorem invoke_args_overridden command argv options w w' evs r c args :
  run command argv options w = (w', evs, r) →
  EvInvoke c args ∈ evs →
  args !! "clear" = Some (VBool false) ∧
  ∃ config, get_config options = Normal config ∧ args !! "config" = Some config.
Proof.
  intros Hrun Hin.
  destruct (run_invoke_logged _ _ _ _ _ _ _ _ _ Hrun Hin) as (config & Hcfg & ->).
  unfold build_args. split.
  - rewrite lookup_insert_ne by done. apply lookup_insert_eq.
  - exists config. split; [done|]. apply lookup_insert_eq.
Qed.

(** C5. Under every key other than [clear] and [config], an argument
    object that [runCommand] passes to an [invoke] holds exactly what
    the parser produced from [argv] (from [process.argv.slice(2)] when
    [argv] is omitted): present with the same value, or absent. *)
Theorem invoke_args_frame command argv options w w' evs r c args :
  run command argv options w = (w', evs, r) →
  EvInvoke c args ∈ evs →
  ∀ key, key ≠ "clear" → key ≠ "config" →
    args !! key = mri (default (drop 2 process_argv) argv) !! key.
Proof.
  intros Hrun Hin key Hclear Hconfig.
  destruct (run_invoke_logged _ _ _ _ _ _ _ _ _ Hrun Hin) as (config & _ & ->).
  unfold build_args, parse_args. by rewrite !lookup_insert_ne.
Qed.

(** C6 (amended). When [options] is neither [undefined] nor [null] and
    the registry holds a loader under the name, [runCommand] raises its
    [Invalid command] error exactly when the awaited loader yields a
    falsy value; and a run that raises that error raised it for this
    name, after the one load and without any [invoke]. *)
Theorem runCommand_invalid_iff command argv options (loader : Loader) w w1 outcome :
  options ≠ VUndefined →
  options ≠ VNull →
  commands !! command = Some loader →
  loader w = (w1, outcome) →
  ((∃ cmd, outcome = Normal cmd ∧ loaded_truthy cmd = false)
   ↔ runCommand mri process_argv commands command argv options w
     = (w1, [EvLoad command], Throw (NewError ("Invalid command " +:+ command))))
  ∧ ∀ w' evs msg,
      runCommand mri process_argv commands command argv options w
      = (w', evs, Throw (NewError msg)) →
      msg = "Invalid command " +:+ command ∧ evs = [EvLoad command] ∧
      ∃ cmd, outcome = Normal cmd ∧ loaded_truthy cmd = false.
Proof.
  intros Hundefined Hnull Hreg Hload.
  destruct (get_config_readable options Hundefined Hnull) as [config Hcfg].
  assert (Hraised : ∀ w' evs msg,
    runCommand mri process_argv commands command argv options w
    = (w', evs, Throw (NewError msg)) →
    msg = "Invalid command " +:+ command ∧ evs = [EvLoad command] ∧
    ∃ cmd, outcome = Normal cmd ∧ loaded_truthy cmd = false).
  { intros w' evs msg Hrun. run_inversion Hrun; try congruence.
    - split; [done|]. split; [done|].
      match goal with
      | Hreg' : commands !! command = Some ?l, Hload' : ?l w = _ |- _ =>
          rewrite Hreg in Hreg'; injection Hreg' as <-;
          rewrite Hload in Hload'; injection Hload' as _ ->
      end.
      by eexists.
    - by destruct_forwarded. }
  split; [split|done].
  - intros (cmd & -> & Hfalsy). by eapply run_loaded_falsy.
  - intros Hrun. by destruct (Hraised _ _ _ Hrun) as (_ & _ & ?).
Qed.

End NuxiFacts.

(** * The runner at work *)

(** C2 (at a name the registry does not hold). For the unknown name
    [foo], line 9 calls [commands["foo"]], which is [undefined]: the run
    ends there with the engine's TypeError, before the guard of line 10,
    and not with the [Invalid command foo] error that line 11 builds. *)
Theorem unknown_command_is_a_type_error :
  Fixture.registry !! "foo" = None ∧
  runCommand Fixture.parse ["node"; "nuxi"] Fixture.registry "foo" (Some []) Fixture.options []
  = ([], [], Throw (TypeError "commands[command] is not a function")) ∧
  ∀ w evs,
    runCommand Fixture.parse ["node"; "nuxi"] Fixture.registry "foo" (Some []) Fixture.options []
    ≠ (w, evs, Throw (NewError "Invalid command foo")).
Proof.
  assert (Hrun :
    runCommand Fixture.parse ["node"; "nuxi"] Fixture.registry "foo" (Some []) Fixture.options []
    = ([], [], Throw (TypeError "commands[command] is not a function"))).
  { by apply (run_not_callable _ _ _ _ _ _ (VObj {[ "ssr" := VBool false ]})). }
  split; [done|]. split; [done|]. intros w evs. rewrite Hrun. congruence.
Qed.

(** [nuxi build .]: one load, one invoke on the parsed and overridden
    arguments, and the journal shows the command ran on them. *)
Lemma runCommand_dispatches_witness :
  let args : gmap string JsVal :=
    {[ "_" := VArr [VStr "."];
       "clear" := VBool false;
       "config" := VObj {[ "ssr" := VBool false ]} ]} in
  runCommand Fixture.parse ["node"; "nuxi"] Fixture.registry "build" (Some ["."]) Fixture.options []
  = ([("build", args)],
     [EvLoad "build"; EvInvoke (Fixture.journalling "build") args],
     Normal VUndefined).
Proof.
  intros args.
  destruct (runCommand_dispatches Fixture.parse ["node"; "nuxi"] Fixture.registry
              "build" (Some ["."]) Fixture.options
              (Fixture.resolves (LCommand (Fixture.journalling "build")))
              (Fixture.journalling "build") [] [])
    as (config & args' & Hcfg & -> & ->).
  - discriminate.
  - discriminate.
  - vm_compute. reflexivity.
  - reflexivity.
  - vm_compute in Hcfg. injection Hcfg as <-. vm_compute. reflexivity.
Defined.

(** C1 as worded fails without options: [runCommand('build', ['.'])]
    on a registry that maps [build] to a command throws on line 8,
    loads nothing and invokes nothing. *)
Lemma runCommand_dispatches_counterexample :
  Fixture.registry !! "build"
  = Some (Fixture.resolves (LCommand (Fixture.journalling "build"))) ∧
  runCommand Fixture.parse ["node"; "nuxi"] Fixture.registry "build" (Some ["."]) VUndefined []
  = ([], [], Throw (TypeError "Cannot read properties of undefined (reading 'config')")) ∧
  ¬ ∃ args,
      runCommand Fixture.parse ["node"; "nuxi"] Fixture.registry "build" (Some ["."]) VUndefined []
      = (let '(w2, r) := invoke (Fixture.journalling "build") args [] in
         (w2, [EvLoad "build"; EvInvoke (Fixture.journalling "build") args], forwarded r)).
Proof.
  split; [vm_compute; reflexivity|]. split; [reflexivity|].
  intros [args Hrun]. discriminate Hrun.
Qed.

(** A build that fails: the reason reaches the caller as it is. *)
Lemma runCommand_forwards_failure_witness :
  runCommand Fixture.parse ["node"; "nuxi"] Fixture.registry' "broken" None Fixture.options []
  = ([],
     [EvLoad "broken";
      EvInvoke (Fixture.failing Fixture.build_failure)
        (build_args Fixture.parse ["node"; "nuxi"] None (VObj {[ "ssr" := VBool false ]}))],
     Throw (Foreign Fixture.build_failure)).
Proof.
  apply (runCommand_forwards_failure Fixture.parse ["node"; "nuxi"] Fixture.registry'
           "broken" None Fixture.options (VObj {[ "ssr" := VBool false ]})
           (Fixture.resolves (LCommand (Fixture.failing Fixture.build_failure)))
           (Fixture.failing Fixture.build_failure) [] [] [] Fixture.build_failure).
  - vm_compute. reflexivity.
  - vm_compute. reflexivity.
  - reflexivity.
  - reflexivity.
Defined.

(** [nuxi dev --clear --config other.config.ts --port 4000]: the parser
    finds [clear] and [config] in the flags, and [dev] is invoked with
    [clear] reset and [config] taken from the options. *)
Lemma invoke_args_overridden_witness :
  let args :=
    build_args Fixture.parse ["node"; "nuxi"] (Some Fixture.flags)
      (VObj {[ "ssr" := VBool false ]}) in
  (Fixture.parse Fixture.flags !! "clear" = Some (VBool true) ∧
   Fixture.parse Fixture.flags !! "config" = Some (VStr "other.config.ts")) ∧
  (args !! "clear" = Some (VBool false) ∧
   ∃ config, get_config Fixture.options = Normal config ∧ args !! "config" = Some config).
Proof.
  intros args. split.
  - split; vm_compute; reflexivity.
  - apply (invoke_args_overridden Fixture.parse ["node"; "nuxi"] Fixture.registry
             "dev" (Some Fixture.flags) Fixture.options []
             [("dev", args)]
             [EvLoad "dev"; EvInvoke (Fixture.journalling "dev") args]
             (Normal VUndefined) (Fixture.journalling "dev") args).
    + vm_compute. reflexivity.
    + apply list_elem_of_further, list_elem_of_here.
Defined.

(** In the same run the [port] flag and the positional arguments reach
    [dev] as parsed. *)
Lemma invoke_args_frame_witness :
  let args :=
    build_args Fixture.parse ["node"; "nuxi"] (Some Fixture.flags)
      (VObj {[ "ssr" := VBool false ]}) in
  args !! "port" = Fixture.parse Fixture.flags !! "port" ∧
  args !! "_" = Fixture.parse Fixture.flags !! "_".
Proof.
  intros args.
  pose proof (invoke_args_frame Fixture.parse ["node"; "nuxi"] Fixture.registry
                "dev" (Some Fixture.flags) Fixture.options []
                [("dev", args)]
                [EvLoad "dev"; EvInvoke (Fixture.journalling "dev") args]
                (Normal VUndefined) (Fixture.journalling "dev") args) as Hframe.
  assert (Hrun :
    runCommand Fixture.parse ["node"; "nuxi"] Fixture.registry
      "dev" (Some Fixture.flags) Fixture.options []
    = ([("dev", args)], [EvLoad "dev"; EvInvoke (Fixture.journalling "dev") args],
       Normal VUndefined)).
  { vm_compute. reflexivity. }
  specialize (Hframe Hrun (list_elem_of_further _ _ _ (list_elem_of_here _ _))).
  split; apply Hframe; discriminate.
Defined.

(** An entry that loads [undefined]: the run ends with the
    [Invalid command] error after the one load, and no command ran. *)
Lemma runCommand_invalid_iff_witness :
  runCommand Fixture.parse ["node"; "nuxi"] Fixture.registry' "empty" (Some []) Fixture.options []
  = ([], [EvLoad "empty"], Throw (NewError "Invalid command empty")).
Proof.
  apply (runCommand_invalid_iff Fixture.parse ["node"; "nuxi"] Fixture.registry'
           "empty" (Some []) Fixture.options
           (Fixture.resolves (LValue VUndefined)) [] [] (Normal (LValue VUndefined))).
  - discriminate.
  - discriminate.
  - vm_compute. reflexivity.
  - reflexivity.
  - exists (LValue VUndefined). split; reflexivity.
Defined.

(** C6 as worded fails in its "if" direction. Without options the
    entry that loads [undefined] is never looked up: the run throws on
    line 8. And a name under which nothing is registered yields no
    command either, yet the run throws on line 9, before the guard. In
    neither run is the [Invalid command] error raised. *)
Lemma runCommand_invalid_iff_counterexample :
  (Fixture.registry' !! "empty" = Some (Fixture.resolves (LValue VUndefined)) ∧
   loaded_truthy (World := Fixture.Journal) (LValue VUndefined) = false ∧
   runCommand Fixture.parse ["node"; "nuxi"] Fixture.registry' "empty" (Some []) VUndefined []
   = ([], [], Throw (TypeError "Cannot read properties of undefined (reading 'config')")) ∧
   ¬ ∃ w' evs msg,
       runCommand Fixture.parse ["node"; "nuxi"] Fixture.registry' "empty" (Some []) VUndefined []
       = (w', evs, Throw (NewError msg)))
  ∧
  (Fixture.registry' !! "foo" = None ∧
   runCommand Fixture.parse ["node"; "nuxi"] Fixture.registry' "foo" (Some []) Fixture.options []
   = ([], [], Throw (TypeError "commands[command] is not a function")) ∧
   ¬ ∃ w' evs msg,
       runCommand Fixture.parse ["node"; "nuxi"] Fixture.registry' "foo" (Some []) Fixture.options []
       = (w', evs, Throw (NewError msg))).
Proof.
  split.
  - split; [vm_compute; reflexivity|]. split; [reflexivity|]. split; [reflexivity|].
    intros (w' & evs & msg & Hrun). discriminate Hrun.
  - assert (Hrun :
      runCommand Fixture.parse ["node"; "nuxi"] Fixture.registry' "foo" (Some []) Fixture.options []
      = ([], [], Throw (TypeError "commands[command] is not a function"))).
    { vm_compute. reflexivity. }
    split; [vm_compute; reflexivity|]. split; [exact Hrun|].
    intros (w' & evs & msg & Hrun'). rewrite Hrun in Hrun'. discriminate Hrun'.
Qed.

(** * More runs *)

(** [nuxi build .] returned: it went through the registry. *)
Lemma run_returns_by_dispatch_witness :
  let args :=
    build_args Fixture.parse ["node"; "nuxi"] (Some ["."]) (VObj {[ "ssr" := VBool false ]}) in
  ∃ config (loader : Loader) w1 c,
    get_config Fixture.options = Normal config ∧
    Fixture.registry !! "build" = Some loader ∧
    loader [] = (w1, Normal (LCommand c)) ∧
    invoke c (build_args Fixture.parse ["node"; "nuxi"] (Some ["."]) config) w1
    = ([("build", args)], Normal VUndefined) ∧
    [EvLoad "build"; EvInvoke (Fixture.journalling "build") args]
    = [EvLoad "build";
       EvInvoke c (build_args Fixture.parse ["node"; "nuxi"] (Some ["."]) config)].
Proof.
  intros args.
  apply (run_returns_by_dispatch Fixture.parse ["node"; "nuxi"] Fixture.registry
           "build" (Some ["."]) Fixture.options [] [("build", args)]
           [EvLoad "build"; EvInvoke (Fixture.journalling "build") args] VUndefined).
  vm_compute. reflexivity.
Defined.

(** A rejected import: the log is the one load. *)
Lemma run_log_shape_witness :
  [EvLoad (World := Fixture.Journal) "offline"] = [] ∨
  [EvLoad (World := Fixture.Journal) "offline"] = [EvLoad "offline"] ∨
  ∃ c args, [EvLoad (World := Fixture.Journal) "offline"] = [EvLoad "offline"; EvInvoke c args].
Proof.
  apply (run_log_shape Fixture.parse ["node"; "nuxi"] Broken.registry
           "offline" (Some []) Fixture.options [] []
           [EvLoad "offline"] (Throw (Foreign Broken.import_failure))).
  vm_compute. reflexivity.
Defined.

(** [runCommand('dev')], without options: nothing is loaded. *)
Lemma run_without_call_witness :
  (@nil (Event (World := Fixture.Journal)) = []
   ↔ (VUndefined = VUndefined ∨ VUndefined = VNull) ∨ Fixture.registry !! "dev" = None)
  ∧ (@nil (Event (World := Fixture.Journal)) = [] →
     @nil (string * gmap string JsVal) = [] ∧
     ∃ msg,
       Throw (A := JsVal)
         (TypeError "Cannot read properties of undefined (reading 'config')")
       = Throw (TypeError msg)).
Proof.
  apply (run_without_call Fixture.parse ["node"; "nuxi"] Fixture.registry
           "dev" None VUndefined [] [] []
           (Throw (TypeError "Cannot read properties of undefined (reading 'config')"))).
  reflexivity.
Defined.

(** Adding entries to the table does not change [nuxi dev]. *)
Lemma run_registry_frame_witness :
  runCommand Fixture.parse ["node"; "nuxi"] Fixture.registry "dev" (Some Fixture.flags)
    Fixture.options []
  = runCommand Fixture.parse ["node"; "nuxi"] Fixture.registry' "dev" (Some Fixture.flags)
      Fixture.options [].
Proof.
  apply (run_registry_frame Fixture.parse ["node"; "nuxi"] Fixture.registry Fixture.registry'
           "dev" (Some Fixture.flags) Fixture.options []).
  vm_compute. reflexivity.
Defined.

(** A rejected import reaches the caller as it is. *)
Lemma runCommand_forwards_load_failure_witness :
  runCommand Fixture.parse ["node"; "nuxi"] Broken.registry "offline" (Some []) Fixture.options []
  = ([], [EvLoad "offline"], Throw (Foreign Broken.import_failure)).
Proof.
  apply (runCommand_forwards_load_failure Fixture.parse ["node"; "nuxi"] Broken.registry
           "offline" (Some []) Fixture.options (VObj {[ "ssr" := VBool false ]})
           (Broken.rejects Broken.import_failure) [] [] Broken.import_failure).
  - vm_compute. reflexivity.
  - vm_compute. reflexivity.
  - reflexivity.
Defined.

(** The reason of the failed build is the one its [invoke] gave. *)
Lemma run_foreign_provenance_witness :
  let args :=
    build_args Fixture.parse ["node"; "nuxi"] None (VObj {[ "ssr" := VBool false ]}) in
  ∃ config (loader : Loader),
    get_config Fixture.options = Normal config ∧
    Fixture.registry' !! "broken" = Some loader ∧
    ((loader [] = ([], Throw Fixture.build_failure) ∧
      [EvLoad "broken"; EvInvoke (Fixture.failing Fixture.build_failure) args]
      = [EvLoad "broken"])
     ∨ ∃ w1 c,
         loader [] = (w1, Normal (LCommand c)) ∧
         invoke c (build_args Fixture.parse ["node"; "nuxi"] None config) w1
         = ([], Throw Fixture.build_failure) ∧
         [EvLoad "broken"; EvInvoke (Fixture.failing Fixture.build_failure) args]
         = [EvLoad "broken";
            EvInvoke c (build_args Fixture.parse ["node"; "nuxi"] None config)]).
Proof.
  intros args.
  apply (run_foreign_provenance Fixture.parse ["node"; "nuxi"] Fixture.registry'
           "broken" None Fixture.options [] []
           [EvLoad "broken"; EvInvoke (Fixture.failing Fixture.build_failure) args]
           Fixture.build_failure).
  vm_compute. reflexivity.
Defined.

(** A module that exports a string: a TypeError, not [Invalid command]. *)
Lemma runCommand_not_a_command_iff_witness :
  (∃ (loader : Loader) w1 v,
     Broken.registry !! "text" = Some loader ∧
     loader [] = (w1, Normal (LValue v)) ∧ truthy v = true)
  ↔ ∃ w' msg,
      runCommand Fixture.parse ["node"; "nuxi"] Broken.registry "text" (Some []) Fixture.options []
      = (w', [EvLoad "text"], Throw (TypeError msg)).
Proof.
  apply (runCommand_not_a_command_iff Fixture.parse ["node"; "nuxi"] Broken.registry
           "text" (Some []) Fixture.options (VObj {[ "ssr" := VBool false ]}) []).
  vm_compute. reflexivity.
Defined.

(** [--config other.config.ts] with empty options: [dev] sees
    [config: undefined]. *)
Lemma invoke_args_config_missing_witness :
  Fixture.parse Fixture.flags !! "config" = Some (VStr "other.config.ts") ∧
  build_args Fixture.parse ["node"; "nuxi"] (Some Fixture.flags) VUndefined !! "config"
  = Some VUndefined.
Proof.
  split; [vm_compute; reflexivity|].
  apply (invoke_args_config_missing Fixture.parse ["node"; "nuxi"] Fixture.registry
           "dev" (Some Fixture.flags) ∅ []
           [("dev", build_args Fixture.parse ["node"; "nuxi"] (Some Fixture.flags) VUndefined)]
           [EvLoad "dev";
            EvInvoke (Fixture.journalling "dev")
              (build_args Fixture.parse ["node"; "nuxi"] (Some Fixture.flags) VUndefined)]
           (Normal VUndefined) (Fixture.journalling "dev")).
  - reflexivity.
  - vm_compute. reflexivity.
  - apply list_elem_of_further, list_elem_of_here.
Defined.

(** Two parsers that differ on [clear] and [config] only. *)
Lemma run_parser_frame_witness :
  runCommand Fixture.parse ["node"; "nuxi"] Fixture.registry "dev" (Some Fixture.flags)
    Fixture.options []
  = runCommand Broken.parse' ["node"; "nuxi"] Fixture.registry "dev" (Some Fixture.flags)
      Fixture.options [].
Proof.
  apply (run_parser_frame Fixture.parse ["node"; "nuxi"] Fixture.registry Broken.parse'
           "dev" (Some Fixture.flags) Fixture.options []).
  intros argv' key Hclear Hconfig. unfold Broken.parse'.
  rewrite lookup_insert_ne by done. by rewrite lookup_delete_ne.
Defined.

(** [nuxi dev] turns a journal of [dev] entries into a journal of
    [dev] entries. *)
Lemma run_preserves_witness :
  Broken.only_dev
    (runCommand Fixture.parse ["node"; "nuxi"] Fixture.registry "dev" (Some Fixture.flags)
       Fixture.options []).1.1.
Proof.
  apply (run_preserves Fixture.parse ["node"; "nuxi"] Fixture.registry Broken.only_dev
           "dev" (Some Fixture.flags) Fixture.options []).
  - intros loader w0 Hreg Hw0.
    assert (loader = Fixture.resolves (LCommand (Fixture.journalling "dev"))) as ->.
    { vm_compute in Hreg. by injection Hreg as <-. }
    exact Hw0.
  - intros loader w0 w1 c args Hreg Hload Hw1.
    assert (loader = Fixture.resolves (LCommand (Fixture.journalling "dev"))) as ->.
    { vm_compute in Hreg. by injection Hreg as <-. }
    injection Hload as _ <-. simpl. unfold Broken.only_dev.
    apply Forall_app. split; [exact Hw1|]. by repeat constructor.
  - constructor.
Defined.
